(** * Sign-language interpreter widget: a shallow embedding of
    [src/components/sign.jsx]

    The component [SignLanguageConversation] keeps six React state cells,
    three refs, and talks to three asynchronous collaborators: the camera
    ([getUserMedia]), the canvas encoder ([toBlob] + [FileReader]) and the
    generative-AI client ([generateContent]).  The embedding threads one
    [state] record through every handler.  Each asynchronous function is cut
    at its [await]: what runs before it is one action, what runs after it is a
    second action that receives the collaborator's answer as an argument.

    Layout: [Js] holds the fragment of JavaScript values and string
    operations the handlers use, [Sign] the component itself, and the
    properties follow after all definitions. *)

From Stdlib Require Import Ascii String.
From stdpp Require Import base option list strings.

Set Warnings "-register-all".
Local Open Scope string_scope.
Local Open Scope list_scope.

(** ** JavaScript values read by the handlers *)

Module Js.

(** The values the component inspects dynamically: whatever a [catch] clause
    receives, and whatever [split(",")[1]] yields.  Numbers, symbols and
    functions never reach those places with a behaviour that differs from the
    constructors below, so they are left out.  Objects are plain: their
    prototype is [Object.prototype], their own properties are data
    properties with string keys, and since no value below is callable none of
    them holds a method. *)
Inductive jsval : Type :=
  | JUndefined
  | JNull
  | JBool (b : bool)
  | JStr (s : string)
  | JObj (fields : list (string * jsval)).

(** [if (v)]: ToBoolean. *)
Definition truthy (v : jsval) : bool :=
  match v with
  | JUndefined | JNull => false
  | JBool b => b
  | JStr s => negb (String.eqb s "")
  | JObj _ => true
  end.

(** Own property of an object literal; a missing key reads [undefined]. *)
Fixpoint own_prop (fields : list (string * jsval)) (k : string) : jsval :=
  match fields with
  | [] => JUndefined
  | (k', v) :: rest => if String.eqb k k' then v else own_prop rest k
  end.

(** [v.k].  [None] stands for the TypeError raised when [v] is [undefined] or
    [null].  The keys the component reads ([response], [data], [error],
    [message]) are not defined on the String or Boolean prototypes, so a
    primitive answers [undefined]. *)
Definition get_prop (v : jsval) (k : string) : option jsval :=
  match v with
  | JUndefined | JNull => None
  | JBool _ | JStr _ => Some JUndefined
  | JObj fields => Some (own_prop fields k)
  end.

(** Whether the object has an own property [k], whatever its value. *)
Fixpoint has_own (fields : list (string * jsval)) (k : string) : bool :=
  match fields with
  | [] => false
  | (k', _) :: rest => String.eqb k k' || has_own rest k
  end.

(** A value interpolated in a template literal: [`${v}`], that is
    ToString.  An object is converted by its [toString] method, then by its
    [valueOf].  Without an own [toString] it inherits
    [Object.prototype.toString] and reads "[object Object]".  An own
    [toString] cannot be callable here, so it is skipped; [valueOf], own or
    inherited, then yields no primitive, and the conversion throws a
    TypeError: [None]. *)
Definition template (v : jsval) : option string :=
  match v with
  | JUndefined => Some "undefined"
  | JNull => Some "null"
  | JBool true => Some "true"
  | JBool false => Some "false"
  | JStr s => Some s
  | JObj fields => if has_own fields "toString" then None else Some "[object Object]"
  end.

(** [s.split(sep)] for a one-character separator. *)
Fixpoint split_on (sep : ascii) (s : string) : list string :=
  match s with
  | EmptyString => [EmptyString]
  | String c s' =>
      if Ascii.eqb c sep then EmptyString :: split_on sep s'
      else match split_on sep s' with
           | [] => [String c EmptyString]
           | w :: ws => String c w :: ws
           end
  end.

(** [c] does not occur in [s]. *)
Fixpoint free_of (c : ascii) (s : string) : bool :=
  match s with
  | EmptyString => true
  | String c' s' => negb (Ascii.eqb c' c) && free_of c s'
  end.

End Js.

Import Js.

(** ** The component *)

Module Sign.

(** Line 9: the fixed instruction text. *)
Definition HARDCODED_PROMPT : string :=
"Analyze the provided sequence of images or video frames depicting sign language gestures. Your task is to:

1. Interpret the signs accurately, considering:
   - Hand shapes, movements, and positions
   - Facial expressions and body language
   - Any contextual clues within the images

2. Translate the signs into natural, conversational English that captures:
   - The literal meaning of the signs
   - The underlying emotion and tone
   - Any cultural nuances specific to the sign language being used

3. Formulate a response as if you're engaged in a real conversation:
   - Use a friendly, approachable tone
   - Reflect the emotion conveyed in the signs
   - Keep responses concise but natural-sounding

4. If the visual input is unclear or insufficient:
   - Politely mention which aspects are ambiguous
   - Suggest that additional images or video could help with a more accurate interpretation
   - Provide your best interpretation based on available information

5. Be aware of and respect:
   - Different sign language variants (e.g., ASL, BSL, Auslan)
   - The importance of non-manual markers in conveying meaning
   - The three-dimensional nature of sign language when interpreting 2D images

6. If you recognize specific signs or phrases, mention them in your explanation to demonstrate your reasoning.

7. If the signs seem to be part of a longer conversation, acknowledge this and provide context for your response.

Remember, the goal is to bridge communication effectively, ensuring the essence of the signed message is conveyed accurately and naturally in your response.".

(** Line 139: the model identifier handed to [getGenerativeModel]. *)
Definition MODEL : string := "gemini-1.5-flash".

(** *** Data *)

(** A [MediaStream] handle. *)
Definition stream := nat.

(** The [<video>] element behind [videoRef]; only [srcObject] is read. *)
Record video_element := { srcObject : option stream }.

(** The hidden [<canvas>] behind [canvasRef] (lines 206-211). *)
Record canvas_element := { width : nat; height : nat }.

(** One element of the array passed to [generateContent]: the prompt string,
    or [{ inlineData: { data, mimeType } }]. *)
Inductive part : Type :=
  | TextPart (text : string)
  | InlineData (data : jsval) (mimeType : string).

(** One call [getGenerativeModel({ model }).generateContent(contents)]. *)
Record api_call := { call_model : string; call_contents : list part }.

(** What lines 139-146 come back with: the text of the response, or a thrown
    value (from the call, from [result.response] or from [response.text()]). *)
Inductive outcome : Type :=
  | Returned (text : string)
  | Threw (e : jsval).

(** What [getUserMedia] comes back with. *)
Inductive media_outcome : Type :=
  | Granted (s : stream)
  | Denied (e : jsval).

(** How a block of statements ends. *)
Inductive completion : Type :=
  | Normal
  | Abrupt.

(** The [useState] cells (lines 43-51); [error = None] is [null]. *)
Record hooks := {
  isRecording : bool;
  response : string;
  isProcessing : bool;
  error : option string;
  frameSequence : list jsval;
  isSending : bool
}.

(** The [useRef] cells (lines 47-49); [None] is a [null] [current]. *)
Record refs := {
  videoRef : option video_element;
  canvasRef : option canvas_element;
  streamRef : option stream
}.

(** What the component has done to its collaborators and what it still
    awaits from them. *)
Record world := {
  mediaRequests : nat;                      (* getUserMedia calls issued *)
  netCalls : list api_call;                 (* generateContent calls issued *)
  inFlight : nat;                           (* generateContent calls awaited *)
  pendingEncodes : nat;                     (* toBlob callbacks awaited *)
  timerArmed : bool;                        (* the setInterval of line 115 *)
  console : list (string * option jsval);   (* console.error lines *)
  rejections : nat                          (* promises rejected, unhandled *)
}.

Record state := { st_hooks : hooks; st_refs : refs; st_world : world }.

(** An action is a run of statements: it transforms the state. *)
Definition action := state -> state.

Definition seq (a b : action) : action := fun st => b (a st).

Declare Scope action_scope.
Delimit Scope action_scope with action.
Bind Scope action_scope with action.
Notation "a ;; b" := (seq a b) (at level 100, b at level 200, right associativity) : action_scope.
Local Open Scope action_scope.

Definition skip : action := fun st => st.

(** *** State setters *)

Definition with_hooks (f : hooks -> hooks) : action := fun st =>
  {| st_hooks := f (st_hooks st); st_refs := st_refs st; st_world := st_world st |}.

Definition with_refs (f : refs -> refs) : action := fun st =>
  {| st_hooks := st_hooks st; st_refs := f (st_refs st); st_world := st_world st |}.

Definition with_world (f : world -> world) : action := fun st =>
  {| st_hooks := st_hooks st; st_refs := st_refs st; st_world := f (st_world st) |}.

Definition setIsRecording (b : bool) : action := with_hooks (fun h =>
  {| isRecording := b; response := response h; isProcessing := isProcessing h;
     error := error h; frameSequence := frameSequence h; isSending := isSending h |}).

Definition setResponse (s : string) : action := with_hooks (fun h =>
  {| isRecording := isRecording h; response := s; isProcessing := isProcessing h;
     error := error h; frameSequence := frameSequence h; isSending := isSending h |}).

Definition setIsProcessing (b : bool) : action := with_hooks (fun h =>
  {| isRecording := isRecording h; response := response h; isProcessing := b;
     error := error h; frameSequence := frameSequence h; isSending := isSending h |}).

Definition setError (e : option string) : action := with_hooks (fun h =>
  {| isRecording := isRecording h; response := response h; isProcessing := isProcessing h;
     error := e; frameSequence := frameSequence h; isSending := isSending h |}).

(** [setFrameSequence] in its updater form; [setFrameSequence([])] is the
    constant updater. *)
Definition setFrameSequence (f : list jsval -> list jsval) : action := with_hooks (fun h =>
  {| isRecording := isRecording h; response := response h; isProcessing := isProcessing h;
     error := error h; frameSequence := f (frameSequence h); isSending := isSending h |}).

Definition setIsSending (b : bool) : action := with_hooks (fun h =>
  {| isRecording := isRecording h; response := response h; isProcessing := isProcessing h;
     error := error h; frameSequence := frameSequence h; isSending := b |}).

(** [streamRef.current = s]. *)
Definition set_streamRef (s : stream) : action := with_refs (fun r =>
  {| videoRef := videoRef r; canvasRef := canvasRef r; streamRef := Some s |}).

(** [if (videoRef.current) videoRef.current.srcObject = s]. *)
Definition set_srcObject (s : stream) : action := with_refs (fun r =>
  {| videoRef := match videoRef r with
                 | Some _ => Some {| srcObject := Some s |}
                 | None => None
                 end;
     canvasRef := canvasRef r; streamRef := streamRef r |}).

(** *** Calls to the collaborators *)

(** [navigator.mediaDevices.getUserMedia({ video: true, audio: false })]. *)
Definition getUserMedia : action := with_world (fun w =>
  {| mediaRequests := S (mediaRequests w); netCalls := netCalls w; inFlight := inFlight w;
     pendingEncodes := pendingEncodes w; timerArmed := timerArmed w;
     console := console w; rejections := rejections w |}).

(** [model.generateContent(contents)]: the call is issued and awaited. *)
Definition generateContent (contents : list part) : action := with_world (fun w =>
  {| mediaRequests := mediaRequests w;
     netCalls := netCalls w ++ [{| call_model := MODEL; call_contents := contents |}];
     inFlight := S (inFlight w);
     pendingEncodes := pendingEncodes w; timerArmed := timerArmed w;
     console := console w; rejections := rejections w |}).

(** The awaited call has settled. *)
Definition settled : action := with_world (fun w =>
  {| mediaRequests := mediaRequests w; netCalls := netCalls w; inFlight := pred (inFlight w);
     pendingEncodes := pendingEncodes w; timerArmed := timerArmed w;
     console := console w; rejections := rejections w |}).

(** [context.drawImage(...); canvas.toBlob(callback, "image/png")]. *)
Definition toBlob : action := with_world (fun w =>
  {| mediaRequests := mediaRequests w; netCalls := netCalls w; inFlight := inFlight w;
     pendingEncodes := S (pendingEncodes w); timerArmed := timerArmed w;
     console := console w; rejections := rejections w |}).

(** One [toBlob] callback has run. *)
Definition encoded : action := with_world (fun w =>
  {| mediaRequests := mediaRequests w; netCalls := netCalls w; inFlight := inFlight w;
     pendingEncodes := pred (pendingEncodes w); timerArmed := timerArmed w;
     console := console w; rejections := rejections w |}).

(** [setInterval] and [clearInterval] of the effect at lines 112-118. *)
Definition set_timer (b : bool) : action := with_world (fun w =>
  {| mediaRequests := mediaRequests w; netCalls := netCalls w; inFlight := inFlight w;
     pendingEncodes := pendingEncodes w; timerArmed := b;
     console := console w; rejections := rejections w |}).

(** [console.error(label)] or [console.error(label, arg)]. *)
Definition console_error (label : string) (arg : option jsval) : action := with_world (fun w =>
  {| mediaRequests := mediaRequests w; netCalls := netCalls w; inFlight := inFlight w;
     pendingEncodes := pendingEncodes w; timerArmed := timerArmed w;
     console := console w ++ [(label, arg)]; rejections := rejections w |}).

(** An async function ended by throwing: its promise rejects, nobody
    listens. *)
Definition reject : action := with_world (fun w =>
  {| mediaRequests := mediaRequests w; netCalls := netCalls w; inFlight := inFlight w;
     pendingEncodes := pendingEncodes w; timerArmed := timerArmed w;
     console := console w; rejections := S (rejections w) |}).

(** *** Handlers *)

(** Lines 63-74, [setupCamera], with the answer of [getUserMedia]. *)
Definition setupCamera (o : media_outcome) : action :=
  getUserMedia ;;
  match o with
  | Granted s => set_streamRef s ;; set_srcObject s
  | Denied e =>
      console_error "Error accessing camera:" (Some e) ;;
      setError (Some "Error: Unable to access camera. Please check your permissions and try again.")
  end.

(** Lines 91-110, [captureFrame], up to the registration of the [toBlob]
    callback. *)
Definition captureFrame : action := fun st =>
  match videoRef (st_refs st), canvasRef (st_refs st) with
  | Some _, Some _ => toBlob st
  | _, _ => st
  end.

(** Line 105: [reader.result.split(",")[1]]. *)
Definition base64data (result : string) : jsval :=
  match split_on "," result !! 1%nat with
  | Some s => JStr s
  | None => JUndefined
  end.

(** Lines 101-107: the [toBlob] callback and the [onloadend] it installs,
    with [reader.result].  [None] is a [null] result (the blob could not be
    produced or read): [null.split] throws inside the callback and nothing is
    stored. *)
Definition onloadend (result : option string) : action :=
  encoded ;;
  match result with
  | Some r => setFrameSequence (fun prevFrames => prevFrames ++ [base64data r])
  | None => skip
  end.

(** Lines 76-83, [startRecording]. *)
Definition startRecording : action := fun st =>
  match videoRef (st_refs st) with
  | Some {| srcObject := Some _ |} =>
      (setIsRecording true ;;
       setError None ;;
       setFrameSequence (fun _ => []) ;;
       captureFrame) st
  | _ => st
  end.

(** Lines 131-136: one image part per frame. *)
Definition imageParts (frames : list jsval) : list part :=
  map (fun frame => InlineData frame "image/png") frames.

(** Lines 140-143: the argument of [generateContent]. *)
Definition contents_of (frames : list jsval) : list part :=
  TextPart HARDCODED_PROMPT :: imageParts frames.

(** Lines 120-143, [sendVideoSequenceToGoogleGenerativeAI] up to its
    [await]: the guard, the two resets and the call.  [frames] is always an
    array, so [!frames] is false and the guard is the length test. *)
Definition send_begin (frames : list jsval) : action :=
  match frames with
  | [] =>
      console_error "Frame sequence must be present to send to the API" None ;;
      setIsProcessing false
  | _ :: _ =>
      setIsSending true ;;
      setResponse "" ;;
      generateContent (contents_of frames)
  end.

(** Lines 148-155: the [catch] clause.  It ends abruptly when one of its own
    property reads or string conversions throws; [setError] is reached only
    after the whole template literal has been evaluated. *)
Definition catch_clause (e : jsval) (st : state) : completion * state :=
  let st := console_error "Error calling Google Generative AI API:" (Some e) st in
  match get_prop e "response" with
  | None => (Abrupt, st)
  | Some r =>
      if truthy r then
        match get_prop r "data" with
        | None => (Abrupt, st)
        | Some d =>
            match template d with
            | None => (Abrupt, st)
            | Some shown =>
                let st := console_error ("API Response Error: " +:+ shown) None st in
                match (get_prop d "error" ≫= (fun err => get_prop err "message"))
                      ≫= template with
                | None => (Abrupt, st)
                | Some m =>
                    (Normal,
                     setError (Some ("Error processing sign language: " +:+ m
                                     +:+ ". Please try again.")) st)
                end
            end
        end
      else
        match get_prop e "message" ≫= template with
        | None => (Abrupt, st)
        | Some m =>
            (Normal,
             setError (Some ("Unexpected error: " +:+ m +:+ ". Please try again.")) st)
        end
  end.

(** Lines 145-159: the rest of the [try], the [catch] and the [finally],
    with the answer of the service. *)
Definition send_settle (o : outcome) (st : state) : completion * state :=
  let st := settled st in
  let '(c, st) :=
    match o with
    | Returned text => (Normal, setResponse text st)
    | Threw e => catch_clause e st
    end in
  (c, (setIsProcessing false ;; setIsSending false) st).

(** Lines 120-160 when nothing else runs between the call and its answer,
    the service being [svc].  With an empty batch there is no [await] and
    this is the whole function.  With a non-empty batch the function is
    suspended at its [await] and other handlers may run meanwhile: the event
    loop below runs [send_begin] and [send_settle] in separate turns. *)
Definition sendVideoSequenceToGoogleGenerativeAI
    (svc : api_call -> outcome) (frames : list jsval) (st : state) : completion * state :=
  match frames with
  | [] => (Normal, send_begin frames st)
  | _ :: _ =>
      send_settle (svc {| call_model := MODEL; call_contents := contents_of frames |})
                  (send_begin frames st)
  end.

(** Lines 85-89, [stopRecording], up to the [await] inside the submission. *)
Definition stopRecording : action := fun st =>
  (setIsRecording false ;;
   setIsProcessing true ;;
   send_begin (frameSequence (st_hooks st))) st.

(** Lines 112-118: the effect keyed on [isRecording], run after a render. *)
Definition frameCaptureInterval : action := fun st =>
  set_timer (isRecording (st_hooks st)) st.

(** *** What is rendered *)

(** Lines 193-201: the interpretation panel. *)
Inductive panel : Type :=
  | Spinner
  | ErrorText (message : string)
  | ResponseText (text : string).

Definition interpretation_panel (st : state) : panel :=
  let h := st_hooks st in
  if isProcessing h || isSending h then Spinner
  else match error h with
       | Some e => if String.eqb e "" then ResponseText (response h) else ErrorText e
       | None => ResponseText (response h)
       end.

(** Line 180: the handler bound to the button. *)
Definition onClick : action := fun st =>
  if isRecording (st_hooks st) then stopRecording st else startRecording st.

(** *** The event loop *)

(** What the environment can deliver to the component. *)
Inductive event : Type :=
  | Mount (o : media_outcome)          (* line 54, with getUserMedia's answer *)
  | Click                              (* the button *)
  | Tick                               (* the interval fires *)
  | EncodeDone (result : option string) (* a toBlob/FileReader chain ends *)
  | ServiceDone (o : outcome).         (* the awaited call settles *)

(** Whether the environment can deliver the event now. *)
Definition enabled (e : event) (st : state) : bool :=
  let w := st_world st in
  match e with
  | Mount _ => Nat.eqb (mediaRequests w) 0
  | Click => true
  | Tick => timerArmed w
  | EncodeDone _ => negb (Nat.eqb (pendingEncodes w) 0)
  | ServiceDone _ => negb (Nat.eqb (inFlight w) 0)
  end.

(** The handler of an event. *)
Definition handle (e : event) : action :=
  match e with
  | Mount o => setupCamera o
  | Click => onClick
  | Tick => captureFrame
  | EncodeDone result => onloadend result
  | ServiceDone o => fun st =>
      match send_settle o st with
      | (Normal, st') => st'
      | (Abrupt, st') => reject st'
      end
  end.

(** One turn of the event loop: the handler, then the render and its
    effects. *)
Definition step (e : event) : action := handle e ;; frameCaptureInterval.

(** A sequence of turns; [None] when the environment could not have
    delivered one of the events. *)
Fixpoint run (t : list event) (st : state) : option state :=
  match t with
  | [] => Some st
  | e :: t' => if enabled e st then run t' (step e st) else None
  end.

(** The frames the encode completions of a trace carry, in completion
    order. *)
Fixpoint completed (t : list event) : list jsval :=
  match t with
  | [] => []
  | EncodeDone (Some r) :: t' => base64data r :: completed t'
  | _ :: t' => completed t'
  end.

(** A click that runs [startRecording]. *)
Definition starts (e : event) (st : state) : bool :=
  match e with
  | Click => negb (isRecording (st_hooks st))
  | _ => false
  end.

(** No turn of the trace runs [startRecording]. *)
Fixpoint same_session (t : list event) (st : state) : bool :=
  match t with
  | [] => true
  | e :: t' => negb (starts e st) && same_session t' (step e st)
  end.

(** The component as first rendered: initial hooks, both elements mounted,
    nothing asked of anybody yet. *)
Definition initial : state :=
  {| st_hooks := {| isRecording := false; response := ""; isProcessing := false;
                    error := None; frameSequence := []; isSending := false |};
     st_refs := {| videoRef := Some {| srcObject := None |};
                   canvasRef := Some {| width := 640; height := 480 |};
                   streamRef := None |};
     st_world := {| mediaRequests := 0; netCalls := []; inFlight := 0;
                    pendingEncodes := 0; timerArmed := false; console := [];
                    rejections := 0 |} |}.

(** The [reader.result] of a PNG blob whose base64 text is [b]. *)
Definition png_data_url (b : string) : string := "data:image/png;base64," +:+ b.

(** *** Sample values used to run the component *)

(** Three base64 payloads (of the bytes "A", "B" and "C"). *)
Definition frameA : string := "QQ==".
Definition frameB : string := "Qg==".
Definition frameC : string := "Qw==".

(** A network failure as [fetch] reports it: an [Error] with a message and
    no [response]. *)
Definition fetch_error : jsval := JObj [("message", JStr "Failed to fetch")].

(** An error carrying the envelope the [catch] clause reads. *)
Definition envelope_error : jsval :=
  JObj [("message", JStr "Request failed with status code 429");
        ("response",
         JObj [("data", JObj [("error", JObj [("message", JStr "Quota exceeded")])])])].

(** An error whose [response] is the service's own response object, which
    has no [data] member: what the client library throws from
    [response.text()] when the answer was blocked. *)
Definition blocked_error : jsval :=
  JObj [("message", JStr "Text not available. Response was blocked due to SAFETY");
        ("response", JObj [("promptFeedback", JObj [("blockReason", JStr "SAFETY")])])].

(** Mounted with the camera granted, then the button pressed once. *)
Definition recording : state := step Click (step (Mount (Granted 1)) initial).

(** Recording, the first encode completed. *)
Definition one_frame : state := step (EncodeDone (Some (png_data_url frameA))) recording.

(** The button pressed again: the call carrying that frame is awaited. *)
Definition awaiting : state := step Click one_frame.

(** *** Unmount *)

Section Teardown.

(** The media tracks of a stream, as [stream.getTracks()] lists them. *)
Variable track : Type.
Variable getTracks : stream -> list track.

(** Lines 55-60: the cleanup returned by the mount effect.  The result is
    the list of tracks on which [stop()] is called, in call order. *)
Definition cleanup (st : state) : list track :=
  match streamRef (st_refs st) with
  | Some s => getTracks s
  | None => []
  end.

End Teardown.

(** *** Vocabulary for the properties of runs *)

(** The answer of [getUserMedia] a trace delivers, if it delivers one. *)
Fixpoint first_mount (t : list event) : option media_outcome :=
  match t with
  | [] => None
  | Mount o :: _ => Some o
  | _ :: t' => first_mount t'
  end.

(** A turn that reports a failure: the camera request is denied, or an
    awaited call throws. *)
Definition fails (e : event) : bool :=
  match e with
  | Mount (Denied _) | ServiceDone (Threw _) => true
  | _ => false
  end.

(** No turn of the trace reports a failure. *)
Fixpoint quiet (t : list event) : bool :=
  match t with
  | [] => true
  | e :: t' => negb (fails e) && quiet t'
  end.

(** A call as line 140 builds it: the fixed model, the prompt, and at least
    one image part. *)
Definition well_formed_call (c : api_call) : Prop :=
  call_model c = MODEL /\
  exists (f : jsval) (fs : list jsval), call_contents c = contents_of (f :: fs).

(** What holds of the component between any two turns of the event loop. *)
Record consistent (st : state) : Prop := {
  video_shows_stream :
    videoRef (st_refs st) = Some {| srcObject := streamRef (st_refs st) |};
  canvas_mounted :
    canvasRef (st_refs st) = Some {| width := 640; height := 480 |};
  timer_follows_flag :
    timerArmed (st_world st) = isRecording (st_hooks st);
  recording_has_stream :
    isRecording (st_hooks st) = true -> streamRef (st_refs st) <> None;
  busy_has_call :
    isProcessing (st_hooks st) || isSending (st_hooks st) = true ->
    inFlight (st_world st) <> 0;
  calls_well_formed :
    Forall well_formed_call (netCalls (st_world st))
}.

End Sign.

Import Sign.
Local Open Scope action_scope.
(** ** Properties *)

(** *** Strings *)

Lemma split_on_free (c : ascii) (s : string) :
  free_of c s = true -> split_on c s = [s].
Proof.
  induction s as [|a s IH]; simpl; [reflexivity|].
  intros [Ha Hs]%andb_prop.
  apply negb_true_iff in Ha. rewrite Ha, (IH Hs). reflexivity.
Qed.

Lemma split_on_app (c : ascii) (p s : string) :
  free_of c p = true -> split_on c (p +:+ String c s) = p :: split_on c s.
Proof.
  induction p as [|a p IH]; simpl.
  - intros _. rewrite Ascii.eqb_refl. reflexivity.
  - intros [Ha Hp]%andb_prop.
    apply negb_true_iff in Ha. rewrite Ha, (IH Hp). reflexivity.
Qed.

(** The payload of a PNG data URL is what [captureFrame] stores. *)
Lemma base64data_png (b : string) :
  free_of "," b = true -> base64data (png_data_url b) = JStr b.
Proof.
  intros Hb. unfold base64data.
  change (png_data_url b) with ("data:image/png;base64" +:+ String "," b).
  rewrite split_on_app by reflexivity.
  rewrite (split_on_free _ _ Hb). reflexivity.
Qed.

(** *** Frame conditions of the handlers *)

Ltac open_state st :=
  destruct st as [[? ? ? ? ? ?] [? ? ?] [? ? ? ? ? ? ?]].

Ltac crush_action :=
  repeat (simpl in *; unfold seq, skip in *; try reflexivity; try congruence;
          match goal with
          | |- context [match ?x with _ => _ end] => destruct x eqn:?
          end).

Lemma catch_clause_hooks (e : jsval) (st : state) :
  let h := st_hooks st in
  let h' := st_hooks (snd (catch_clause e st)) in
  isRecording h' = isRecording h /\ response h' = response h /\
  isProcessing h' = isProcessing h /\ frameSequence h' = frameSequence h /\
  isSending h' = isSending h.
Proof.
  open_state st. unfold catch_clause.
  repeat split; crush_action.
Qed.

Lemma catch_clause_world (e : jsval) (st : state) :
  let w := st_world st in
  let w' := st_world (snd (catch_clause e st)) in
  mediaRequests w' = mediaRequests w /\ netCalls w' = netCalls w /\
  inFlight w' = inFlight w /\ pendingEncodes w' = pendingEncodes w.
Proof.
  open_state st. unfold catch_clause.
  repeat split; crush_action.
Qed.

(** The two branches of the [catch] clause on the values they are written
    for: an envelope [{ response: { data: { error: { message } } } }] and a
    value without a truthy [response]. *)
Lemma catch_clause_envelope (fields rfields dfields efields : list (string * jsval)) (st : state) :
  own_prop fields "response" = JObj rfields ->
  own_prop rfields "data" = JObj dfields ->
  own_prop dfields "error" = JObj efields ->
  has_own dfields "toString" = false ->
  forall m : string,
  template (own_prop efields "message") = Some m ->
  fst (catch_clause (JObj fields) st) = Normal /\
  error (st_hooks (snd (catch_clause (JObj fields) st)))
  = Some ("Error processing sign language: " +:+ m +:+ ". Please try again.").
Proof.
  intros Hr Hd He Hshown m Hm. open_state st. unfold catch_clause. simpl.
  rewrite Hr. simpl. rewrite Hd. simpl. rewrite Hshown, He. simpl. rewrite Hm.
  split; reflexivity.
Qed.

Lemma catch_clause_generic (fields : list (string * jsval)) (st : state) :
  truthy (own_prop fields "response") = false ->
  forall m : string,
  template (own_prop fields "message") = Some m ->
  fst (catch_clause (JObj fields) st) = Normal /\
  error (st_hooks (snd (catch_clause (JObj fields) st)))
  = Some ("Unexpected error: " +:+ m +:+ ". Please try again.").
Proof.
  intros Hr m Hm. open_state st. unfold catch_clause. simpl.
  rewrite Hr. simpl. rewrite Hm. split; reflexivity.
Qed.

(** Whenever the [catch] clause ends normally it has set [error]. *)
Lemma catch_clause_normal (e : jsval) (st : state) :
  fst (catch_clause e st) = Normal ->
  exists m, error (st_hooks (snd (catch_clause e st))) = Some m.
Proof.
  open_state st. unfold catch_clause.
  crush_action; intros; try discriminate; eexists; reflexivity.
Qed.

(** When it ends abruptly it has not. *)
Lemma catch_clause_abrupt (e : jsval) (st : state) :
  fst (catch_clause e st) = Abrupt ->
  error (st_hooks (snd (catch_clause e st))) = error (st_hooks st).
Proof.
  open_state st. unfold catch_clause.
  crush_action; intros; try discriminate; reflexivity.
Qed.

(** *** The empty batch *)

(** C10: on the early return of the submission the only hook that changes
    is [isProcessing], which is cleared; [error], [response],
    [frameSequence], [isSending] and [isRecording] keep their values, no
    call is issued, and the panel shows what it would show for the old
    state with the busy flag down. *)
Theorem empty_batch_only_clears_processing (svc : api_call -> outcome) (st : state) :
  let st' := snd (sendVideoSequenceToGoogleGenerativeAI svc [] st) in
  isProcessing (st_hooks st') = false /\
  error (st_hooks st') = error (st_hooks st) /\
  response (st_hooks st') = response (st_hooks st) /\
  frameSequence (st_hooks st') = frameSequence (st_hooks st) /\
  isSending (st_hooks st') = isSending (st_hooks st) /\
  isRecording (st_hooks st') = isRecording (st_hooks st) /\
  st_refs st' = st_refs st /\
  netCalls (st_world st') = netCalls (st_world st) /\
  inFlight (st_world st') = inFlight (st_world st) /\
  interpretation_panel st' = interpretation_panel (setIsProcessing false st).
Proof.
  open_state st. cbv [sendVideoSequenceToGoogleGenerativeAI send_begin seq snd].
  repeat split.
Qed.

(** C1 (as the code has it): a stop with no captured frame issues no call
    and awaits none; the failure goes to the console only, [isProcessing]
    is cleared at once, and [error] and [response] are left as they were. *)
Theorem empty_stop_no_call (st : state) :
  frameSequence (st_hooks st) = [] ->
  let st' := stopRecording st in
  netCalls (st_world st') = netCalls (st_world st) /\
  inFlight (st_world st') = inFlight (st_world st) /\
  console (st_world st')
  = console (st_world st) ++ [("Frame sequence must be present to send to the API", None)] /\
  isProcessing (st_hooks st') = false /\
  error (st_hooks st') = error (st_hooks st) /\
  response (st_hooks st') = response (st_hooks st).
Proof.
  intros Hempty. unfold stopRecording. rewrite Hempty.
  open_state st. repeat split.
Qed.

Lemma empty_stop_no_call_witness :
  frameSequence (st_hooks recording) = [] /\
  netCalls (st_world (stopRecording recording)) = netCalls (st_world recording) /\
  inFlight (st_world (stopRecording recording)) = inFlight (st_world recording) /\
  console (st_world (stopRecording recording))
  = console (st_world recording) ++ [("Frame sequence must be present to send to the API", None)] /\
  isProcessing (st_hooks (stopRecording recording)) = false /\
  error (st_hooks (stopRecording recording)) = error (st_hooks recording) /\
  response (st_hooks (stopRecording recording)) = response (st_hooks recording).
Proof.
  split; [reflexivity | apply (empty_stop_no_call recording); reflexivity].
Defined.

(** C1 (as stated) fails: start, then stop before the first encode has
    completed.  No frame is held, [error] stays [null] and the panel shows
    the (empty) response text, not an error. *)
Lemma empty_stop_shows_no_error :
  (fun st => (frameSequence (st_hooks st),
              error (st_hooks (stopRecording st)),
              interpretation_panel (stopRecording st)))
    <$> run [Mount (Granted 1); Click] initial
  = Some ([], None, ResponseText "").
Proof. reflexivity. Qed.

(** *** Success *)

Lemma step_service_done (o : outcome) (st : state) :
  st_hooks (step (ServiceDone o) st) = st_hooks (snd (send_settle o st)).
Proof.
  unfold step, seq, handle.
  destruct (send_settle o st) as [[|] [? ? [? ? ? ? ? ? ?]]]; reflexivity.
Qed.

(** A turn that reports no failure leaves an empty [error] empty. *)
Lemma step_quiet_error (e : event) (st : state) :
  fails e = false ->
  error (st_hooks st) = None ->
  error (st_hooks (step e st)) = None.
Proof.
  intros Hquiet Hnone. destruct e as [[s|x]| | |result|[text|x]]; try discriminate.
  - open_state st. exact Hnone.
  - destruct st as [[rec resp proc err frames sending] [video canvas strm] w].
    simpl in Hnone. subst err.
    destruct rec; [destruct frames | destruct video as [[[?|]]|]; destruct canvas];
      reflexivity.
  - destruct st as [[rec resp proc err frames sending] [video canvas strm] w].
    destruct video, canvas; exact Hnone.
  - destruct result; open_state st; exact Hnone.
  - rewrite step_service_done. open_state st. exact Hnone.
Qed.

Lemma run_quiet_error (t : list event) (st st' : state) :
  quiet t = true ->
  run t st = Some st' ->
  error (st_hooks st) = None ->
  error (st_hooks st') = None.
Proof.
  revert st. induction t as [|e t IH]; intros st Hquiet Hrun Hnone; simpl in Hquiet, Hrun.
  - injection Hrun as <-. exact Hnone.
  - apply andb_prop in Hquiet as [He Ht]. apply negb_true_iff in He.
    destruct (enabled e st); [|discriminate].
    exact (IH _ Ht Hrun (step_quiet_error e st He Hnone)).
Qed.

(** C2 (as the code has it): when the awaited call returns a text, the
    turn that handles the answer stores the text in [response], lowers both
    busy flags and leaves [error] exactly as that turn found it.  If [error]
    is [null] then, the panel shows the text; this is so whenever [error] was
    [null] at some earlier moment (such as the submission) and no turn since
    has reported a failure.  If [error] holds a message then, the message
    stays and the panel shows it instead of the text. *)
Theorem success_stores_text_keeps_error (st : state) (text : string) :
  let st' := step (ServiceDone (Returned text)) st in
  response (st_hooks st') = text /\
  error (st_hooks st') = error (st_hooks st) /\
  isProcessing (st_hooks st') = false /\
  isSending (st_hooks st') = false /\
  (error (st_hooks st) = None -> interpretation_panel st' = ResponseText text) /\
  (forall (a : ascii) (m : string),
     error (st_hooks st) = Some (String a m) ->
     interpretation_panel st' = ErrorText (String a m)) /\
  (forall (st0 : state) (t : list event),
     error (st_hooks st0) = None -> quiet t = true -> run t st0 = Some st ->
     error (st_hooks st) = None).
Proof.
  cbv zeta.
  assert (Hhooks : st_hooks (step (ServiceDone (Returned text)) st)
                   = {| isRecording := isRecording (st_hooks st); response := text;
                        isProcessing := false; error := error (st_hooks st);
                        frameSequence := frameSequence (st_hooks st);
                        isSending := false |}).
  { rewrite step_service_done. open_state st. reflexivity. }
  unfold interpretation_panel. rewrite Hhooks. simpl.
  do 4 (split; [reflexivity|]).
  split; [intros ->; reflexivity|].
  split; [intros a m ->; reflexivity|].
  intros st0 t Hnone Hquiet Hrun. exact (run_quiet_error t st0 st Hquiet Hrun Hnone).
Qed.

Lemma success_stores_text_keeps_error_witness :
  error (st_hooks awaiting) = None /\
  quiet [Click; EncodeDone (Some (png_data_url frameB))] = true /\
  exists st,
    run [Click; EncodeDone (Some (png_data_url frameB))] awaiting = Some st /\
    interpretation_panel (step (ServiceDone (Returned "HELLO")) st) = ResponseText "HELLO".
Proof.
  split; [vm_compute; reflexivity|]. split; [vm_compute; reflexivity|].
  eexists. split; [vm_compute; reflexivity|].
  lazymatch goal with
  | |- interpretation_panel (step _ ?s) = _ =>
      destruct (success_stores_text_keeps_error s "HELLO")
        as (_ & _ & _ & _ & Hshown & _ & Hclean)
  end.
  apply Hshown.
  apply (Hclean awaiting [Click; EncodeDone (Some (png_data_url frameB))]);
    vm_compute; reflexivity.
Defined.

(** C2 (as stated) fails: a first attempt is still awaited when a second
    recording is started; the first attempt then fails and sets [error]; the
    second attempt succeeds and stores "HELLO" without clearing it. *)
Lemma success_keeps_stale_error :
  (fun st => (error (st_hooks st), response (st_hooks st), interpretation_panel st))
    <$> run [Mount (Granted 1);
             Click; EncodeDone (Some (png_data_url frameA)); Click;
             Click; EncodeDone (Some (png_data_url frameB));
             ServiceDone (Threw fetch_error);
             Click; ServiceDone (Returned "HELLO")] initial
  = Some (Some "Unexpected error: Failed to fetch. Please try again.",
          "HELLO",
          ErrorText "Unexpected error: Failed to fetch. Please try again.").
Proof. reflexivity. Qed.

(** *** Failure *)

(** C4, at an error whose [response] has no [data]: the [catch] clause takes
    the structured branch, throws on [error.response.data.error], and the
    submission ends with [error] still [null], an empty [response], a
    rejected promise and nothing but an empty paragraph on the panel. *)
Theorem blocked_response_reports_nothing :
  (fun st => (error (st_hooks st), response (st_hooks st), isProcessing (st_hooks st),
              rejections (st_world st), interpretation_panel st))
    <$> run [Mount (Granted 1); Click; EncodeDone (Some (png_data_url frameA)); Click;
             ServiceDone (Threw blocked_error)] initial
  = Some (None, "", false, 1, ResponseText "").
Proof. reflexivity. Qed.

(** *** The busy flag *)

Lemma send_settle_clears (o : outcome) (st : state) :
  isProcessing (st_hooks (snd (send_settle o st))) = false /\
  isSending (st_hooks (snd (send_settle o st))) = false.
Proof.
  unfold send_settle.
  destruct o as [text|e]; [open_state st; split; reflexivity|].
  destruct (catch_clause e (settled st)) as [c [[? ? ? ? ? ?] ? ?]].
  split; reflexivity.
Qed.

Lemma send_settle_threw (e : jsval) (st : state) :
  let r := send_settle (Threw e) st in
  response (st_hooks (snd r)) = response (st_hooks st) /\
  (fst r = Normal -> exists m, error (st_hooks (snd r)) = Some m).
Proof.
  unfold send_settle.
  pose proof (catch_clause_hooks e (settled st)) as (_ & Hresp & _).
  pose proof (catch_clause_normal e (settled st)) as Hnormal.
  destruct (catch_clause e (settled st)) as [c [[? ? ? ? ? ?] ? ?]].
  simpl in *. split; [rewrite Hresp; open_state st; reflexivity | exact Hnormal].
Qed.

Lemma send_settle_threw_catch (e : jsval) (st : state) :
  fst (send_settle (Threw e) st) = fst (catch_clause e (settled st)) /\
  error (st_hooks (snd (send_settle (Threw e) st)))
  = error (st_hooks (snd (catch_clause e (settled st)))).
Proof.
  unfold send_settle.
  destruct (catch_clause e (settled st)) as [c [[? ? ? ? ? ?] ? ?]].
  split; reflexivity.
Qed.

Lemma send_settle_threw_abrupt (e : jsval) (st : state) :
  fst (send_settle (Threw e) st) = Abrupt ->
  error (st_hooks (snd (send_settle (Threw e) st))) = error (st_hooks st).
Proof.
  destruct (send_settle_threw_catch e st) as [-> ->]. intros Habrupt.
  rewrite (catch_clause_abrupt e (settled st) Habrupt). open_state st. reflexivity.
Qed.

(** The busy flags are up only while a call is awaited. *)
Lemma step_busy (e : event) (st : state) :
  (isProcessing (st_hooks st) || isSending (st_hooks st) = true ->
   inFlight (st_world st) <> 0) ->
  isProcessing (st_hooks (step e st)) || isSending (st_hooks (step e st)) = true ->
  inFlight (st_world (step e st)) <> 0.
Proof.
  intros Hbusy. destruct e as [o| | |result|o].
  - destruct o; open_state st; exact Hbusy.
  - destruct st as [[rec resp proc err frames sending] [video canvas strm] w].
    destruct w. simpl in Hbusy.
    destruct rec.
    + destruct frames; simpl; [|discriminate].
      intros H. apply Hbusy. rewrite H. apply orb_true_r.
    + destruct video as [[[?|]]|]; destruct canvas; exact Hbusy.
  - destruct st as [[rec resp proc err frames sending] [video canvas strm] w].
    destruct w. destruct video, canvas; exact Hbusy.
  - destruct result; open_state st; exact Hbusy.
  - rewrite step_service_done.
    destruct (send_settle_clears o st) as [-> ->]. discriminate.
Qed.

Lemma run_busy (t : list event) (st st' : state) :
  run t st = Some st' ->
  (isProcessing (st_hooks st) || isSending (st_hooks st) = true ->
   inFlight (st_world st) <> 0) ->
  isProcessing (st_hooks st') || isSending (st_hooks st') = true ->
  inFlight (st_world st') <> 0.
Proof.
  revert st. induction t as [|e t IH]; intros st Hrun Hst; simpl in Hrun.
  - injection Hrun as <-. exact Hst.
  - destruct (enabled e st); [|discriminate].
    exact (IH _ Hrun (step_busy e st Hst)).
Qed.

(** C3 (as the code has it), turn by turn.  Stop raises [isProcessing]
    before it submits.  With an empty batch the same turn lowers it again,
    with no call made and [response] and [error] untouched.  With a
    non-empty batch the turn ends with the flag up and one more call
    awaited.  From then on the camera's answer, a tick, an encode completion
    and a click that starts a recording leave the flag as it is; a click
    that stops a recording holding no frame lowers it, and so does the turn
    that handles the answer to any awaited call, whatever the answer: a text
    is stored in [response] and [error] is untouched; a thrown value leaves
    [response] untouched and sets [error] when the [catch] clause completes,
    and leaves [error] untouched when the [catch] clause itself throws.  In
    every state the component can reach, a raised flag means that a call is
    still awaited. *)
Theorem processing_flag_cleared (st : state) :
  let invoked := (setIsRecording false ;; setIsProcessing true) st in
  (isProcessing (st_hooks invoked) = true /\
   stopRecording st = send_begin (frameSequence (st_hooks st)) invoked) /\
  (isRecording (st_hooks st) = true ->
   frameSequence (st_hooks st) = [] ->
   isProcessing (st_hooks (step Click st)) = false /\
   response (st_hooks (step Click st)) = response (st_hooks st) /\
   error (st_hooks (step Click st)) = error (st_hooks st) /\
   netCalls (st_world (step Click st)) = netCalls (st_world st) /\
   inFlight (st_world (step Click st)) = inFlight (st_world st)) /\
  (isRecording (st_hooks st) = true ->
   frameSequence (st_hooks st) <> [] ->
   isProcessing (st_hooks (step Click st)) = true /\
   isSending (st_hooks (step Click st)) = true /\
   inFlight (st_world (step Click st)) = S (inFlight (st_world st))) /\
  (forall e : event,
     (e = Click -> isRecording (st_hooks st) = false) ->
     (forall o, e <> ServiceDone o) ->
     isProcessing (st_hooks (step e st)) = isProcessing (st_hooks st)) /\
  (forall o : outcome,
     isProcessing (st_hooks (step (ServiceDone o) st)) = false /\
     isSending (st_hooks (step (ServiceDone o) st)) = false) /\
  (forall text : string,
     response (st_hooks (step (ServiceDone (Returned text)) st)) = text /\
     error (st_hooks (step (ServiceDone (Returned text)) st)) = error (st_hooks st)) /\
  (forall e : jsval,
     response (st_hooks (step (ServiceDone (Threw e)) st)) = response (st_hooks st) /\
     (fst (send_settle (Threw e) st) = Normal ->
      exists m, error (st_hooks (step (ServiceDone (Threw e)) st)) = Some m) /\
     (fst (send_settle (Threw e) st) = Abrupt ->
      error (st_hooks (step (ServiceDone (Threw e)) st)) = error (st_hooks st))) /\
  (forall t : list event,
     run t initial = Some st ->
     isProcessing (st_hooks st) = true ->
     inFlight (st_world st) <> 0).
Proof.
  cbv zeta.
  split; [split; open_state st; reflexivity|].
  split.
  { intros Hrec Hempty.
    destruct st as [[rec resp proc err frames sending] [video canvas strm] w].
    destruct w. simpl in Hrec, Hempty. subst rec frames. repeat split. }
  split.
  { intros Hrec Hframes.
    destruct st as [[rec resp proc err frames sending] [video canvas strm] w].
    destruct w. simpl in Hrec, Hframes. subst rec.
    destruct frames; [congruence|]. repeat split. }
  split.
  { intros e Hclick Hservice. destruct e as [o| | |result|o].
    - destruct o; open_state st; reflexivity.
    - specialize (Hclick eq_refl).
      destruct st as [[rec resp proc err frames sending] [video canvas strm] w].
      simpl in Hclick. subst rec.
      destruct video as [[[?|]]|]; destruct canvas; reflexivity.
    - destruct st as [[rec resp proc err frames sending] [video canvas strm] w].
      destruct video, canvas; reflexivity.
    - destruct result; open_state st; reflexivity.
    - exfalso. exact (Hservice o eq_refl). }
  split.
  { intros o. rewrite step_service_done. apply send_settle_clears. }
  split.
  { intros text. rewrite step_service_done. open_state st. split; reflexivity. }
  split.
  { intros e. rewrite step_service_done.
    destruct (send_settle_threw e st) as [Hresp Hnormal].
    split; [exact Hresp|]. split; [exact Hnormal|].
    apply send_settle_threw_abrupt. }
  intros t Hrun Hup.
  apply (run_busy t initial st Hrun); [discriminate|].
  rewrite Hup. reflexivity.
Qed.

Lemma processing_flag_cleared_witness :
  isRecording (st_hooks one_frame) = true /\
  frameSequence (st_hooks one_frame) <> [] /\
  isProcessing (st_hooks (step Click one_frame)) = true /\
  isProcessing (st_hooks (step Tick awaiting)) = isProcessing (st_hooks awaiting) /\
  isProcessing (st_hooks (step (ServiceDone (Threw blocked_error)) awaiting)) = false /\
  inFlight (st_world awaiting) <> 0.
Proof.
  assert (Hrec : isRecording (st_hooks one_frame) = true) by (vm_compute; reflexivity).
  assert (Hframes : frameSequence (st_hooks one_frame) <> []) by (vm_compute; discriminate).
  pose proof (processing_flag_cleared one_frame) as (_ & _ & Hstop & _).
  pose proof (processing_flag_cleared awaiting) as (_ & _ & _ & Hkeep & Hdown & _ & _ & Hcall).
  split; [exact Hrec|]. split; [exact Hframes|].
  split; [exact (proj1 (Hstop Hrec Hframes))|].
  split; [apply Hkeep; [discriminate | intros o; discriminate]|].
  split; [exact (proj1 (Hdown (Threw blocked_error)))|].
  apply (Hcall [Mount (Granted 1); Click; EncodeDone (Some (png_data_url frameA)); Click]);
    vm_compute; reflexivity.
Defined.

(** C3 (as stated) fails twice.  After start and an immediate stop the flag
    is down while no result and no error has been set.  And while the call
    of a first attempt is still awaited, a second start followed by an
    immediate stop lowers the flag, again with no result and no error. *)
Lemma empty_attempt_sets_neither :
  (fun st => (isProcessing (st_hooks st), response (st_hooks st), error (st_hooks st),
              netCalls (st_world st)))
    <$> run [Mount (Granted 1); Click; Click] initial
  = Some (false, "", None, []) /\
  (fun st => (isProcessing (st_hooks st), inFlight (st_world st),
              response (st_hooks st), error (st_hooks st)))
    <$> run [Mount (Granted 1); Click; EncodeDone (Some (png_data_url frameA)); Click;
             Click; Click] initial
  = Some (false, 1, "", None).
Proof. split; reflexivity. Qed.

(** *** Start *)

(** C6 (as the code has it): with both elements mounted and a stream bound
    to the preview, start empties [frameSequence], raises [isRecording],
    clears [error], begins one capture at once, and the effect that follows
    arms the timer.  It leaves [response] as it was: that is emptied by the
    next submission of a non-empty batch, before any new text is stored. *)
Theorem start_with_stream (st : state) (s : stream) (c : canvas_element) :
  videoRef (st_refs st) = Some {| srcObject := Some s |} ->
  canvasRef (st_refs st) = Some c ->
  let st' := startRecording st in
  frameSequence (st_hooks st') = [] /\
  isRecording (st_hooks st') = true /\
  error (st_hooks st') = None /\
  pendingEncodes (st_world st') = S (pendingEncodes (st_world st)) /\
  timerArmed (st_world (frameCaptureInterval st')) = true /\
  response (st_hooks st') = response (st_hooks st) /\
  (forall (frames : list jsval) (s' : state),
     frames <> [] -> response (st_hooks (send_begin frames s')) = "").
Proof.
  intros Hvideo Hcanvas. open_state st. simpl in *. subst.
  repeat split.
  intros frames s' Hne. destruct frames as [|f fs]; [congruence|].
  open_state s'. reflexivity.
Qed.

Lemma start_with_stream_witness :
  videoRef (st_refs (step (Mount (Granted 1)) initial)) = Some {| srcObject := Some 1 |} /\
  canvasRef (st_refs (step (Mount (Granted 1)) initial)) = Some {| width := 640; height := 480 |} /\
  frameSequence (st_hooks (startRecording (step (Mount (Granted 1)) initial))) = [] /\
  isRecording (st_hooks (startRecording (step (Mount (Granted 1)) initial))) = true.
Proof.
  split; [reflexivity|]. split; [reflexivity|].
  pose proof (start_with_stream (step (Mount (Granted 1)) initial) 1
                {| width := 640; height := 480 |} eq_refl eq_refl) as (H1 & H2 & _).
  split; [exact H1 | exact H2].
Defined.

(** C6 (as stated) fails twice: without a bound stream the start action
    changes nothing, and with one it does not clear the previous result. *)
Lemma start_needs_stream_and_keeps_result :
  step Click initial = initial /\
  (fun st => (isRecording (st_hooks st), response (st_hooks st)))
    <$> run [Mount (Granted 1); Click; EncodeDone (Some (png_data_url frameA)); Click;
             ServiceDone (Returned "HELLO"); Click] initial
  = Some (true, "HELLO").
Proof. split; reflexivity. Qed.

(** *** The request *)

Lemma send_settle_world (o : outcome) (st : state) :
  let w := st_world st in
  let w' := st_world (snd (send_settle o st)) in
  mediaRequests w' = mediaRequests w /\ netCalls w' = netCalls w /\
  pendingEncodes w' = pendingEncodes w.
Proof.
  unfold send_settle. destruct o as [text|e]; [open_state st; repeat split|].
  pose proof (catch_clause_world e (settled st)) as (Hm & Hn & _ & Hp).
  destruct (catch_clause e (settled st)) as [c [? ? [? ? ? ? ? ? ?]]].
  open_state st. simpl in *. repeat split; assumption.
Qed.

(** C7: submitting a non-empty sequence issues exactly one call, to the
    fixed model, whose contents are the instruction text followed by one
    image part per frame, in order, each carrying the frame as data with
    mimeType "image/png"; settling the call issues no other.  The frame
    stored for a PNG data URL is its base64 payload. *)
Theorem request_payload (frames : list jsval) (st : state) :
  frames <> [] ->
  let st' := send_begin frames st in
  let contents := contents_of frames in
  netCalls (st_world st')
  = netCalls (st_world st) ++ [{| call_model := MODEL; call_contents := contents |}] /\
  length (netCalls (st_world st')) = S (length (netCalls (st_world st))) /\
  inFlight (st_world st') = S (inFlight (st_world st)) /\
  contents = TextPart HARDCODED_PROMPT :: map (fun f => InlineData f "image/png") frames /\
  length contents = S (length frames) /\
  (forall i : nat,
     contents !! S i = (fun f => InlineData f "image/png") <$> (frames !! i)) /\
  (forall o : outcome,
     netCalls (st_world (snd (send_settle o st'))) = netCalls (st_world st')) /\
  (forall (b : string) (s : state),
     free_of "," b = true ->
     frameSequence (st_hooks (onloadend (Some (png_data_url b)) s))
     = frameSequence (st_hooks s) ++ [JStr b]).
Proof.
  intros Hne. destruct frames as [|f fs]; [congruence|]. cbv zeta.
  split; [open_state st; reflexivity|].
  split; [open_state st; simpl; rewrite length_app; simpl; lia|].
  split; [open_state st; reflexivity|].
  split; [reflexivity|].
  split; [unfold contents_of, imageParts; simpl; rewrite length_map; reflexivity|].
  split; [intros i; exact (list_lookup_fmap (fun x => InlineData x "image/png") (f :: fs) i)|].
  split; [intros o; apply send_settle_world|].
  intros b s Hb. open_state s. simpl. rewrite (base64data_png b Hb). reflexivity.
Qed.

Lemma request_payload_witness :
  [JStr frameA; JStr frameB] <> [] /\
  netCalls (st_world (send_begin [JStr frameA; JStr frameB] recording))
  = [{| call_model := "gemini-1.5-flash";
        call_contents := [TextPart HARDCODED_PROMPT;
                          InlineData (JStr "QQ==") "image/png";
                          InlineData (JStr "Qg==") "image/png"] |}].
Proof.
  split; [discriminate|].
  pose proof (request_payload [JStr frameA; JStr frameB] recording) as H.
  destruct H as (Hcalls & _); [discriminate|]. exact Hcalls.
Defined.

(** *** The frame sequence *)

Lemma send_settle_frames (o : outcome) (st : state) :
  frameSequence (st_hooks (snd (send_settle o st))) = frameSequence (st_hooks st).
Proof.
  unfold send_settle. destruct o as [text|e]; [open_state st; reflexivity|].
  pose proof (catch_clause_hooks e (settled st)) as (_ & _ & _ & Hf & _).
  destruct (catch_clause e (settled st)) as [c [[? ? ? ? ? ?] ? ?]].
  open_state st. exact Hf.
Qed.

(** One turn that is not a start appends what it completed, and nothing
    else. *)
Lemma step_frames (e : event) (st : state) :
  starts e st = false ->
  frameSequence (st_hooks (step e st)) = frameSequence (st_hooks st) ++ completed [e].
Proof.
  intros Hstart. destruct e as [o| | |result|o].
  - simpl. rewrite app_nil_r. destruct o; open_state st; reflexivity.
  - simpl in *. rewrite app_nil_r. apply negb_false_iff in Hstart.
    unfold step, seq, handle, onClick. rewrite Hstart.
    unfold stopRecording. destruct (frameSequence (st_hooks st)) eqn:Hf;
      open_state st; simpl in *; congruence.
  - simpl. rewrite app_nil_r. unfold step, seq, handle, captureFrame.
    open_state st. simpl. repeat case_match; reflexivity.
  - destruct result as [r|]; simpl; [|rewrite app_nil_r]; open_state st; reflexivity.
  - simpl. rewrite app_nil_r. unfold step, seq, handle.
    pose proof (send_settle_frames o st) as Hf.
    destruct (send_settle o st) as [[|] [[? ? ? ? ? ?] ? [? ? ? ? ? ? ?]]]; exact Hf.
Qed.

Lemma completed_cons (e : event) (t : list event) :
  completed (e :: t) = completed [e] ++ completed t.
Proof. destruct e as [| | |[r|]|]; reflexivity. Qed.

(** C8: over any run of turns in which no start action is taken, the frame
    sequence at the end is the sequence at the beginning followed by the
    frames of the encode completions, in completion order; every position
    already filled keeps its frame; one completed encode appends exactly one
    frame at the end; no other turn changes the sequence. *)
Theorem frames_append_only (t : list event) (st st' : state) :
  same_session t st = true ->
  run t st = Some st' ->
  frameSequence (st_hooks st') = frameSequence (st_hooks st) ++ completed t /\
  (forall (i : nat) (x : jsval),
     frameSequence (st_hooks st) !! i = Some x ->
     frameSequence (st_hooks st') !! i = Some x) /\
  (forall (r : string) (s : state),
     frameSequence (st_hooks (step (EncodeDone (Some r)) s))
     = frameSequence (st_hooks s) ++ [base64data r]) /\
  (forall (e : event) (s : state),
     starts e s = false -> completed [e] = [] ->
     frameSequence (st_hooks (step e s)) = frameSequence (st_hooks s)).
Proof.
  intros Hsession Hrun.
  assert (Happ : frameSequence (st_hooks st') = frameSequence (st_hooks st) ++ completed t).
  { revert st Hsession Hrun. induction t as [|e t IH]; intros st Hsession Hrun.
    - simpl in *. injection Hrun as <-. rewrite app_nil_r. reflexivity.
    - simpl in Hsession, Hrun.
      apply andb_prop in Hsession as [Hstart Hrest].
      apply negb_true_iff in Hstart.
      destruct (enabled e st); [|discriminate].
      rewrite (completed_cons e t), app_assoc, <- (step_frames e st Hstart).
      exact (IH _ Hrest Hrun). }
  split; [exact Happ|].
  split.
  { intros i x Hi. rewrite Happ. apply lookup_app_l_Some. exact Hi. }
  split.
  { intros r s. apply (step_frames (EncodeDone (Some r)) s). reflexivity. }
  intros e s Hstart Hnone. rewrite (step_frames e s Hstart), Hnone. apply app_nil_r.
Qed.

Lemma frames_append_only_witness :
  same_session [Tick; EncodeDone (Some (png_data_url frameA)); Click;
                EncodeDone (Some (png_data_url frameB))] recording = true /\
  (exists st',
     run [Tick; EncodeDone (Some (png_data_url frameA)); Click;
          EncodeDone (Some (png_data_url frameB))] recording = Some st' /\
     frameSequence (st_hooks st') = [JStr "QQ=="; JStr "Qg=="]).
Proof.
  assert (Hsession : same_session [Tick; EncodeDone (Some (png_data_url frameA)); Click;
                                   EncodeDone (Some (png_data_url frameB))] recording = true)
    by (vm_compute; reflexivity).
  split; [exact Hsession|].
  eexists. split; [vm_compute; reflexivity|].
  rewrite (proj1 (frames_append_only _ recording _ Hsession ltac:(vm_compute; reflexivity))).
  vm_compute. reflexivity.
Defined.
(** *** The scenario *)

(** The scenario for arbitrary [reader.result] strings. *)
Lemma scenario_run (s : stream) (r1 r2 r3 : string) :
  exists st',
    run [Mount (Granted s); Click;
         Tick; EncodeDone (Some r1);
         Tick; EncodeDone (Some r2);
         Tick; EncodeDone (Some r3);
         Click; ServiceDone (Returned "HELLO")] initial = Some st' /\
    response (st_hooks st') = "HELLO" /\
    interpretation_panel st' = ResponseText "HELLO" /\
    isProcessing (st_hooks st') = false /\
    isSending (st_hooks st') = false /\
    isRecording (st_hooks st') = false /\
    error (st_hooks st') = None /\
    frameSequence (st_hooks st') = [base64data r1; base64data r2; base64data r3] /\
    netCalls (st_world st')
    = [{| call_model := MODEL;
          call_contents := contents_of [base64data r1; base64data r2; base64data r3] |}].
Proof.
  eexists. split; [vm_compute; reflexivity|].
  repeat split; vm_compute; reflexivity.
Qed.

(** C5 (as the code has it): start, three ticks with three completed
    encodes of PNG frames [a], [b], [c], stop, and a service answering
    "HELLO".  The run ends with "HELLO" as the response and on the panel, no
    flag raised, no error, one call made with the three frames in order,
    and the three frames still held in [frameSequence]. *)
Theorem hello_scenario (s : stream) (a b c : string) :
  free_of "," a = true -> free_of "," b = true -> free_of "," c = true ->
  exists st',
    run [Mount (Granted s); Click;
         Tick; EncodeDone (Some (png_data_url a));
         Tick; EncodeDone (Some (png_data_url b));
         Tick; EncodeDone (Some (png_data_url c));
         Click; ServiceDone (Returned "HELLO")] initial = Some st' /\
    response (st_hooks st') = "HELLO" /\
    interpretation_panel st' = ResponseText "HELLO" /\
    isProcessing (st_hooks st') = false /\
    isSending (st_hooks st') = false /\
    isRecording (st_hooks st') = false /\
    error (st_hooks st') = None /\
    frameSequence (st_hooks st') = [JStr a; JStr b; JStr c] /\
    netCalls (st_world st')
    = [{| call_model := MODEL; call_contents := contents_of [JStr a; JStr b; JStr c] |}].
Proof.
  intros Ha Hb Hc.
  destruct (scenario_run s (png_data_url a) (png_data_url b) (png_data_url c))
    as (st' & Hrun & Hrest).
  rewrite (base64data_png a Ha), (base64data_png b Hb), (base64data_png c Hc) in Hrest.
  exists st'. split; [exact Hrun | exact Hrest].
Qed.

Lemma hello_scenario_witness :
  free_of "," frameA = true /\ free_of "," frameB = true /\ free_of "," frameC = true /\
  (exists st',
    run [Mount (Granted 1); Click;
         Tick; EncodeDone (Some (png_data_url frameA));
         Tick; EncodeDone (Some (png_data_url frameB));
         Tick; EncodeDone (Some (png_data_url frameC));
         Click; ServiceDone (Returned "HELLO")] initial = Some st' /\
    response (st_hooks st') = "HELLO").
Proof.
  repeat (split; [reflexivity|]).
  destruct (hello_scenario 1 frameA frameB frameC eq_refl eq_refl eq_refl)
    as (st' & Hrun & Hresp & _).
  exists st'. split; [exact Hrun | exact Hresp].
Defined.

(** C5 (as stated) fails on its last-but-one clause: at the end of the
    scenario the three frames are still in [frameSequence]. *)
Lemma hello_scenario_keeps_frames :
  (fun st => (response (st_hooks st), isProcessing (st_hooks st), frameSequence (st_hooks st)))
    <$> run [Mount (Granted 1); Click;
             Tick; EncodeDone (Some (png_data_url frameA));
             Tick; EncodeDone (Some (png_data_url frameB));
             Tick; EncodeDone (Some (png_data_url frameC));
             Click; ServiceDone (Returned "HELLO")] initial
  = Some ("HELLO", false, [JStr "QQ=="; JStr "Qg=="; JStr "Qw=="]).
Proof. reflexivity. Qed.

(** *** The camera *)

Lemma step_mediaRequests (ev : event) (s : state) :
  (forall o, ev <> Mount o) ->
  mediaRequests (st_world (step ev s)) = mediaRequests (st_world s).
Proof.
  intros Hmount. destruct ev as [o| | |result|o].
  - exfalso. exact (Hmount o eq_refl).
  - destruct s as [[rec resp proc err frames sending] [video canvas strm] w].
    destruct rec; [destruct frames | destruct video as [[[?|]]|]; destruct canvas];
      reflexivity.
  - unfold step, seq, handle, captureFrame.
    open_state s. simpl. repeat case_match; reflexivity.
  - destruct result; open_state s; reflexivity.
  - unfold step, seq, handle.
    pose proof (send_settle_world o s) as (Hm & _).
    destruct (send_settle o s) as [[|] [? ? [? ? ? ? ? ? ?]]]; exact Hm.
Qed.

(** C9: when [getUserMedia] fails, [error] is set to the camera message
    and nothing else in the hooks or refs changes; one request was made, no
    promise is left rejected, the mount effect cannot run again and no other
    event asks for the camera; and whenever no stream is bound to the
    preview the start action leaves the state exactly as it was. *)
Theorem camera_denied (e : jsval) (st : state) :
  let st' := setupCamera (Denied e) st in
  error (st_hooks st')
  = Some "Error: Unable to access camera. Please check your permissions and try again." /\
  isRecording (st_hooks st') = isRecording (st_hooks st) /\
  response (st_hooks st') = response (st_hooks st) /\
  isProcessing (st_hooks st') = isProcessing (st_hooks st) /\
  frameSequence (st_hooks st') = frameSequence (st_hooks st) /\
  isSending (st_hooks st') = isSending (st_hooks st) /\
  st_refs st' = st_refs st /\
  mediaRequests (st_world st') = S (mediaRequests (st_world st)) /\
  netCalls (st_world st') = netCalls (st_world st) /\
  pendingEncodes (st_world st') = pendingEncodes (st_world st) /\
  timerArmed (st_world st') = timerArmed (st_world st) /\
  rejections (st_world st') = rejections (st_world st) /\
  (forall o, enabled (Mount o) st' = false) /\
  (forall (ev : event) (s : state),
     (forall o, ev <> Mount o) ->
     mediaRequests (st_world (step ev s)) = mediaRequests (st_world s)) /\
  (forall s : state,
     videoRef (st_refs s) = None \/ videoRef (st_refs s) = Some {| srcObject := None |} ->
     startRecording s = s) /\
  step Click (step (Mount (Denied e)) initial) = step (Mount (Denied e)) initial.
Proof.
  cbv zeta. open_state st.
  do 12 (split; [reflexivity|]).
  split; [intros o; reflexivity|].
  split; [exact step_mediaRequests|].
  split; [|reflexivity].
  intros s [Hv|Hv]; unfold startRecording; rewrite Hv; reflexivity.
Qed.

Lemma camera_denied_witness :
  videoRef (st_refs initial) = Some {| srcObject := None |} /\
  startRecording initial = initial /\
  mediaRequests (st_world (step Tick (step (Mount (Denied fetch_error)) initial))) = 1.
Proof.
  pose proof (camera_denied fetch_error initial)
    as (_ & _ & _ & _ & _ & _ & _ & Hone & _ & _ & _ & _ & _ & Hkeep & Hstart & _).
  split; [reflexivity|].
  split; [apply Hstart; right; reflexivity|].
  rewrite Hkeep by (intros o; discriminate). reflexivity.
Defined.

(** ** Further properties of the handlers *)

(** *** Invariants of the event loop *)

Lemma initial_consistent : consistent initial.
Proof.
  split; try reflexivity.
  - discriminate.
  - discriminate.
  - constructor.
Qed.

Lemma catch_clause_refs (e : jsval) (st : state) :
  st_refs (snd (catch_clause e st)) = st_refs st.
Proof. open_state st. unfold catch_clause. crush_action. Qed.

Lemma send_settle_refs (o : outcome) (st : state) :
  st_refs (snd (send_settle o st)) = st_refs st.
Proof.
  unfold send_settle. destruct o as [text|e]; [open_state st; reflexivity|].
  pose proof (catch_clause_refs e (settled st)) as Hr.
  destruct (catch_clause e (settled st)) as [c [? ? ?]].
  open_state st. exact Hr.
Qed.

Lemma send_settle_isRecording (o : outcome) (st : state) :
  isRecording (st_hooks (snd (send_settle o st))) = isRecording (st_hooks st).
Proof.
  unfold send_settle. destruct o as [text|e]; [open_state st; reflexivity|].
  pose proof (catch_clause_hooks e (settled st)) as (Hr & _).
  destruct (catch_clause e (settled st)) as [c [[? ? ? ? ? ?] ? ?]].
  open_state st. exact Hr.
Qed.

Ltac close_inv Hbusy :=
  simpl;
  first [ reflexivity | assumption | discriminate
        | let H := fresh in
          intros H; apply Hbusy; simpl in H; rewrite H; apply orb_true_r ].

Lemma step_consistent (e : event) (st : state) :
  consistent st -> consistent (step e st).
Proof.
  intros [Hvideo Hcanvas Htimer Hrec Hbusy Hcalls].
  destruct e as [o| | |result|o].
  - destruct st as [[rec resp proc err frames sending] [video canvas strm] w].
    destruct w. simpl in *. subst.
    destruct o; split; close_inv Hbusy.
  - destruct st as [[rec resp proc err frames sending] [video canvas strm] w].
    destruct w. simpl in *. subst.
    destruct rec.
    + destruct frames as [|f fs]; split; try (close_inv Hbusy).
      apply Forall_app. split; [assumption|].
      constructor; [|constructor]. split; [reflexivity|]. exists f, fs. reflexivity.
    + destruct strm as [s|]; split; close_inv Hbusy.
  - destruct st as [[rec resp proc err frames sending] [video canvas strm] w].
    destruct w. simpl in *. subst.
    split; close_inv Hbusy.
  - destruct st as [[rec resp proc err frames sending] [video canvas strm] w].
    destruct w. simpl in *. subst.
    destruct result; split; close_inv Hbusy.
  - unfold step, seq, handle, frameCaptureInterval.
    pose proof (send_settle_refs o st) as Hrefs.
    pose proof (send_settle_isRecording o st) as Hisrec.
    pose proof (send_settle_clears o st) as [Hproc Hsend].
    pose proof (send_settle_world o st) as (_ & Hnet & _).
    destruct (send_settle o st) as [c [h' r' w']]. simpl in *. subst r'.
    destruct h', w'. simpl in *. subst.
    destruct c; split; simpl; first [ reflexivity | discriminate | assumption ].
Qed.

Lemma run_consistent (t : list event) (st st' : state) :
  run t st = Some st' -> consistent st -> consistent st'.
Proof.
  revert st. induction t as [|e t IH]; intros st Hrun Hst; simpl in Hrun.
  - injection Hrun as <-. exact Hst.
  - destruct (enabled e st); [|discriminate].
    exact (IH _ Hrun (step_consistent e st Hst)).
Qed.

(** *** Failure messages *)

Lemma error_text_shown (st : state) (a : ascii) (m : string) :
  isProcessing (st_hooks st) = false ->
  isSending (st_hooks st) = false ->
  error (st_hooks st) = Some (String a m) ->
  interpretation_panel st = ErrorText (String a m).
Proof.
  intros Hp Hs He. unfold interpretation_panel. rewrite Hp, Hs, He. reflexivity.
Qed.

(** X1: a failure that carries the envelope
    [{ response: { data: { error: { message } } } }], with a [data] that has
    no own [toString] and a [message] that converts to the string [m], is
    handled by the structured branch: the turn ends normally, both busy
    flags are down, [response] is untouched, and [error], which the panel
    now shows, is "Error processing sign language: " followed by [m] and
    ". Please try again.". *)
Theorem structured_failure_message
    (fields rfields dfields efields : list (string * jsval)) (m : string) (st : state) :
  own_prop fields "response" = JObj rfields ->
  own_prop rfields "data" = JObj dfields ->
  own_prop dfields "error" = JObj efields ->
  has_own dfields "toString" = false ->
  template (own_prop efields "message") = Some m ->
  let r := send_settle (Threw (JObj fields)) st in
  let text := "Error processing sign language: " +:+ m +:+ ". Please try again." in
  fst r = Normal /\
  error (st_hooks (snd r)) = Some text /\
  interpretation_panel (snd r) = ErrorText text /\
  response (st_hooks (snd r)) = response (st_hooks st) /\
  isProcessing (st_hooks (snd r)) = false /\
  isSending (st_hooks (snd r)) = false.
Proof.
  intros Hr Hd He Hshown Hm. cbv zeta.
  pose proof (send_settle_threw_catch (JObj fields) st) as [Hfst Herr].
  pose proof (catch_clause_envelope fields rfields dfields efields (settled st)
                Hr Hd He Hshown m Hm) as [Hnormal Hset].
  pose proof (send_settle_clears (Threw (JObj fields)) st) as [Hproc Hsend].
  pose proof (send_settle_threw (JObj fields) st) as [Hresp _].
  rewrite Hfst, Herr, Hset.
  repeat split; try assumption.
  apply error_text_shown; [assumption | assumption |].
  rewrite Herr, Hset. reflexivity.
Qed.

Lemma structured_failure_message_witness :
  error (st_hooks (snd (send_settle (Threw envelope_error) recording)))
  = Some "Error processing sign language: Quota exceeded. Please try again.".
Proof.
  pose proof (structured_failure_message
                [("message", JStr "Request failed with status code 429");
                 ("response",
                  JObj [("data", JObj [("error", JObj [("message", JStr "Quota exceeded")])])])]
                [("data", JObj [("error", JObj [("message", JStr "Quota exceeded")])])]
                [("error", JObj [("message", JStr "Quota exceeded")])]
                [("message", JStr "Quota exceeded")]
                "Quota exceeded"
                recording eq_refl eq_refl eq_refl eq_refl eq_refl) as (_ & Herr & _).
  exact Herr.
Defined.

(** X2: a thrown object whose [response] is missing or falsy, and whose
    [message] converts to the string [m], is handled by the generic branch:
    the turn ends normally with [error], shown on the panel, equal to
    "Unexpected error: " followed by [m] and ". Please try again."; a value
    without a [message] reads "undefined" there. *)
Theorem generic_failure_message (fields : list (string * jsval)) (m : string) (st : state) :
  truthy (own_prop fields "response") = false ->
  template (own_prop fields "message") = Some m ->
  let r := send_settle (Threw (JObj fields)) st in
  let text := "Unexpected error: " +:+ m +:+ ". Please try again." in
  fst r = Normal /\
  error (st_hooks (snd r)) = Some text /\
  interpretation_panel (snd r) = ErrorText text /\
  response (st_hooks (snd r)) = response (st_hooks st) /\
  isProcessing (st_hooks (snd r)) = false /\
  isSending (st_hooks (snd r)) = false /\
  (own_prop fields "message" = JUndefined -> m = "undefined").
Proof.
  intros Hr Hm. cbv zeta.
  pose proof (send_settle_threw_catch (JObj fields) st) as [Hfst Herr].
  pose proof (catch_clause_generic fields (settled st) Hr m Hm) as [Hnormal Hset].
  pose proof (send_settle_clears (Threw (JObj fields)) st) as [Hproc Hsend].
  pose proof (send_settle_threw (JObj fields) st) as [Hresp _].
  rewrite Hfst, Herr, Hset.
  repeat split; try assumption.
  - apply error_text_shown; [assumption | assumption |].
    rewrite Herr, Hset. reflexivity.
  - intros Hundef. rewrite Hundef in Hm. simpl in Hm. congruence.
Qed.

Lemma generic_failure_message_witness :
  truthy (own_prop [("message", JStr "Failed to fetch")] "response") = false /\
  template (own_prop [("message", JStr "Failed to fetch")] "message") = Some "Failed to fetch" /\
  error (st_hooks (snd (send_settle (Threw fetch_error) recording)))
  = Some "Unexpected error: Failed to fetch. Please try again.".
Proof.
  split; [reflexivity|]. split; [reflexivity|].
  exact (proj1 (proj2 (generic_failure_message [("message", JStr "Failed to fetch")]
                         "Failed to fetch" recording eq_refl eq_refl))).
Defined.

(** *** Calls *)

(** X3: the only turn that issues a call to the service is a click that
    stops a recording holding at least one frame, and it issues exactly one,
    built from the frames held at that moment; mount, timer ticks, encode
    completions, service answers (also failures: nothing is retried) and a
    click that starts a recording issue none. *)
Theorem calls_only_on_stop (e : event) (st : state) :
  netCalls (st_world (step e st))
  = netCalls (st_world st) ++
    match e with
    | Click =>
        if isRecording (st_hooks st) then
          match frameSequence (st_hooks st) with
          | [] => []
          | f :: fs => [{| call_model := MODEL; call_contents := contents_of (f :: fs) |}]
          end
        else []
    | _ => []
    end.
Proof.
  destruct e as [o| | |result|o].
  - rewrite app_nil_r. destruct o; open_state st; reflexivity.
  - destruct st as [[rec resp proc err frames sending] [video canvas strm] w].
    destruct w. simpl.
    destruct rec; [destruct frames; simpl; rewrite ?app_nil_r; reflexivity|].
    rewrite app_nil_r.
    destruct video as [[[?|]]|]; destruct canvas; reflexivity.
  - rewrite app_nil_r.
    destruct st as [[rec resp proc err frames sending] [video canvas strm] w].
    destruct w. destruct video, canvas; reflexivity.
  - rewrite app_nil_r. destruct result; open_state st; reflexivity.
  - rewrite app_nil_r. unfold step, seq, handle.
    pose proof (send_settle_world o st) as (_ & Hnet & _).
    destruct (send_settle o st) as [[|] [? ? [? ? ? ? ? ? ?]]]; exact Hnet.
Qed.

(** X4: in every state the component can reach, every call issued so far
    names the fixed model and carries the instruction text followed by at
    least one image part: a request without frames is never sent. *)
Theorem issued_calls_well_formed (t : list event) (st : state) :
  run t initial = Some st ->
  forall c : api_call,
    In c (netCalls (st_world st)) ->
    call_model c = "gemini-1.5-flash" /\
    exists (f : jsval) (fs : list jsval),
      call_contents c
      = TextPart HARDCODED_PROMPT :: InlineData f "image/png" :: imageParts fs.
Proof.
  intros Hrun c Hin.
  pose proof (calls_well_formed _ (run_consistent t initial st Hrun initial_consistent))
    as Hall.
  rewrite List.Forall_forall in Hall. exact (Hall c Hin).
Qed.

Lemma issued_calls_well_formed_witness :
  exists st,
    run [Mount (Granted 1); Click; EncodeDone (Some (png_data_url frameA)); Click] initial
    = Some st /\
    forall c : api_call,
      In c (netCalls (st_world st)) ->
      call_model c = "gemini-1.5-flash" /\
      exists (f : jsval) (fs : list jsval),
        call_contents c
        = TextPart HARDCODED_PROMPT :: InlineData f "image/png" :: imageParts fs.
Proof.
  eexists. split; [vm_compute; reflexivity|].
  apply (issued_calls_well_formed
           [Mount (Granted 1); Click; EncodeDone (Some (png_data_url frameA)); Click]).
  vm_compute. reflexivity.
Defined.

(** *** The busy indicator *)

(** X5: in every state the component can reach, the panel shows the
    spinner only while a call to the service is awaited; and whatever that
    call then answers, the spinner is gone once the answer is handled. *)
Theorem busy_only_while_awaiting (t : list event) (st : state) :
  run t initial = Some st ->
  interpretation_panel st = Spinner ->
  inFlight (st_world st) <> 0 /\
  (forall o : outcome, enabled (ServiceDone o) st = true) /\
  (forall o : outcome, interpretation_panel (step (ServiceDone o) st) <> Spinner).
Proof.
  intros Hrun Hspin.
  pose proof (busy_has_call _ (run_consistent t initial st Hrun initial_consistent))
    as Hbusy.
  assert (Hflags : isProcessing (st_hooks st) || isSending (st_hooks st) = true).
  { unfold interpretation_panel in Hspin.
    destruct (isProcessing (st_hooks st) || isSending (st_hooks st)); [reflexivity|].
    destruct (error (st_hooks st)) as [m|]; [destruct (String.eqb m "")|]; discriminate. }
  specialize (Hbusy Hflags).
  split; [exact Hbusy|].
  split.
  - intros o. simpl. destruct (inFlight (st_world st)); [congruence | reflexivity].
  - intros o. unfold step, seq, handle, interpretation_panel.
    pose proof (send_settle_clears o st) as [Hproc Hsend].
    destruct (send_settle o st) as [[|] [[? ? ? e ? ?] ? [? ? ? ? ? ? ?]]];
      simpl in *; subst; simpl;
      (destruct e as [m|]; [destruct (String.eqb m "")|]; discriminate).
Qed.

Lemma busy_only_while_awaiting_witness :
  exists st,
    run [Mount (Granted 1); Click; EncodeDone (Some (png_data_url frameA)); Click] initial
    = Some st /\
    interpretation_panel st = Spinner /\
    interpretation_panel (step (ServiceDone (Threw blocked_error)) st) <> Spinner.
Proof.
  eexists. split; [vm_compute; reflexivity|].
  split; [vm_compute; reflexivity|].
  refine (proj2 (proj2 (busy_only_while_awaiting
           [Mount (Granted 1); Click; EncodeDone (Some (png_data_url frameA)); Click]
           _ _ _)) (Threw blocked_error)); vm_compute; reflexivity.
Defined.

(** *** The camera stream *)

Lemma step_refs (e : event) (st : state) :
  (forall o, e <> Mount o) -> st_refs (step e st) = st_refs st.
Proof.
  intros Hmount. destruct e as [o| | |result|o].
  - exfalso. exact (Hmount o eq_refl).
  - destruct st as [[rec resp proc err frames sending] [video canvas strm] w].
    destruct rec; [destruct frames | destruct video as [[[?|]]|]; destruct canvas];
      reflexivity.
  - destruct st as [[rec resp proc err frames sending] [video canvas strm] w].
    destruct video, canvas; reflexivity.
  - destruct result; open_state st; reflexivity.
  - unfold step, seq, handle.
    pose proof (send_settle_refs o st) as Hr.
    destruct (send_settle o st) as [[|] [? ? ?]]; exact Hr.
Qed.

(** The stream handle held after a run: the one granted by the first mount
    answer, if the camera had not been asked for before the run. *)
Lemma run_streamRef (t : list event) (st st' : state) :
  run t st = Some st' ->
  streamRef (st_refs st')
  = match mediaRequests (st_world st), first_mount t with
    | 0, Some (Granted s) => Some s
    | _, _ => streamRef (st_refs st)
    end.
Proof.
  revert st. induction t as [|e t IH]; intros st Hrun; simpl in Hrun.
  - injection Hrun as <-. simpl. destruct (mediaRequests (st_world st)); reflexivity.
  - destruct (enabled e st) eqn:Hen; [|discriminate].
    rewrite (IH _ Hrun).
    destruct e as [o| | |result|o].
    + simpl in Hen. apply Nat.eqb_eq in Hen. simpl first_mount. rewrite Hen.
      destruct o; open_state st; reflexivity.
    + rewrite step_mediaRequests, step_refs by (intros o; discriminate). reflexivity.
    + rewrite step_mediaRequests, step_refs by (intros o; discriminate). reflexivity.
    + rewrite step_mediaRequests, step_refs by (intros o; discriminate). reflexivity.
    + rewrite step_mediaRequests, step_refs by (intros o'; discriminate). reflexivity.
Qed.

(** X6: in every state the component can reach, a recording is under way
    only if the camera was granted: then the stream granted at mount is the
    one held in [streamRef] and bound to the preview, and the capture timer
    is armed; when no recording is under way the timer is not armed. *)
Theorem recording_needs_stream (t : list event) (st : state) :
  run t initial = Some st ->
  timerArmed (st_world st) = isRecording (st_hooks st) /\
  (isRecording (st_hooks st) = true ->
   exists s : stream,
     first_mount t = Some (Granted s) /\
     streamRef (st_refs st) = Some s /\
     videoRef (st_refs st) = Some {| srcObject := Some s |}).
Proof.
  intros Hrun.
  pose proof (run_consistent t initial st Hrun initial_consistent)
    as [Hvideo _ Htimer Hrec _ _].
  split; [exact Htimer|].
  intros Hon. specialize (Hrec Hon).
  pose proof (run_streamRef t initial st Hrun) as Hstream. simpl in Hstream.
  destruct (first_mount t) as [[s|e]|]; try congruence.
  exists s. rewrite Hvideo, Hstream. repeat split.
Qed.

Lemma recording_needs_stream_witness :
  exists st,
    run [Mount (Granted 7); Click; Tick] initial = Some st /\
    isRecording (st_hooks st) = true /\
    streamRef (st_refs st) = Some 7.
Proof.
  eexists. split; [vm_compute; reflexivity|].
  split; [vm_compute; reflexivity|].
  destruct (recording_needs_stream [Mount (Granted 7); Click; Tick] _
              ltac:(vm_compute; reflexivity)) as [_ Hrec].
  destruct (Hrec ltac:(vm_compute; reflexivity)) as (s & Hfirst & Hstream & _).
  injection Hfirst as <-. exact Hstream.
Defined.

(** X7: whenever the component is unmounted, the cleanup stops exactly the
    tracks of the stream that [getUserMedia] granted, which is also the
    stream the preview shows; if the camera was denied, or has not answered
    yet, it stops nothing. *)
Theorem cleanup_releases_granted_stream
    (track : Type) (getTracks : stream -> list track) (t : list event) (st : state) :
  run t initial = Some st ->
  cleanup track getTracks st
  = match first_mount t with
    | Some (Granted s) => getTracks s
    | _ => []
    end /\
  videoRef (st_refs st) = Some {| srcObject := streamRef (st_refs st) |}.
Proof.
  intros Hrun.
  pose proof (run_consistent t initial st Hrun initial_consistent) as [Hvideo _ _ _ _ _].
  split; [|exact Hvideo].
  unfold cleanup. rewrite (run_streamRef t initial st Hrun). simpl.
  destruct (first_mount t) as [[s|e]|]; reflexivity.
Qed.

Lemma cleanup_releases_granted_stream_witness :
  exists st,
    run [Click; Mount (Granted 7); Click; Tick] initial = Some st /\
    cleanup nat (fun s => [s; s + 1]) st = [7; 8].
Proof.
  eexists. split; [vm_compute; reflexivity|].
  exact (proj1 (cleanup_releases_granted_stream nat (fun s => [s; s + 1])
                  [Click; Mount (Granted 7); Click; Tick] _
                  ltac:(vm_compute; reflexivity))).
Defined.

(** X8: once the camera has been granted every click on the button flips
    [isRecording] (and the timer with it); as long as it has not been
    granted no click ever starts a recording. *)
Theorem click_toggles (t : list event) (st : state) :
  run t initial = Some st ->
  (forall s : stream,
     first_mount t = Some (Granted s) ->
     isRecording (st_hooks (step Click st)) = negb (isRecording (st_hooks st)) /\
     timerArmed (st_world (step Click st)) = negb (isRecording (st_hooks st))) /\
  ((forall s : stream, first_mount t <> Some (Granted s)) ->
   isRecording (st_hooks st) = false /\
   isRecording (st_hooks (step Click st)) = false).
Proof.
  intros Hrun.
  pose proof (run_consistent t initial st Hrun initial_consistent)
    as [Hvideo Hcanvas _ Hrec _ _].
  pose proof (run_streamRef t initial st Hrun) as Hstream. simpl in Hstream.
  destruct st as [[rec resp proc err frames sending] [video canvas strm] w].
  simpl in *. subst video canvas.
  split.
  - intros s Hs. rewrite Hs in Hstream. subst strm.
    destruct rec; [destruct frames|]; split; reflexivity.
  - intros Hnone.
    assert (Hs : strm = None).
    { rewrite Hstream. destruct (first_mount t) as [[s|e]|]; try reflexivity.
      exfalso. exact (Hnone s eq_refl). }
    clear Hstream. subst strm. destruct rec; [exfalso; exact (Hrec eq_refl eq_refl)|].
    split; reflexivity.
Qed.

Lemma click_toggles_witness :
  exists st,
    run [Mount (Granted 1); Click; Tick] initial = Some st /\
    isRecording (st_hooks st) = true /\
    isRecording (st_hooks (step Click st)) = false.
Proof.
  eexists. split; [vm_compute; reflexivity|].
  split; [vm_compute; reflexivity|].
  destruct (click_toggles [Mount (Granted 1); Click; Tick] _
              ltac:(vm_compute; reflexivity)) as [Hflip _].
  destruct (Hflip 1 eq_refl) as [Hrec _].
  rewrite Hrec. vm_compute. reflexivity.
Defined.

(** *** Frames *)

Lemma split_on_head (c : ascii) (s : string) :
  exists (w : string) (ws : list string), split_on c s = w :: ws.
Proof.
  destruct s as [|a s]; simpl; [eauto|].
  destruct (Ascii.eqb a c); [eauto|].
  destruct (split_on c s); eauto.
Qed.

Lemma first_occurrence (c : ascii) (s : string) :
  free_of c s = false ->
  exists p q : string, s = p +:+ String c q /\ free_of c p = true.
Proof.
  induction s as [|a s IH]; simpl; [discriminate|].
  destruct (Ascii.eqb a c) eqn:Ha; simpl.
  - intros _. apply Ascii.eqb_eq in Ha. subst a. exists EmptyString, s. split; reflexivity.
  - intros Hs. destruct (IH Hs) as (p & q & -> & Hp).
    exists (String a p), q. simpl. rewrite Ha. split; [reflexivity | exact Hp].
Qed.

(** X9: what line 105 stores for a [reader.result].  It is [undefined]
    exactly when the result contains no comma; for a result with one comma it
    is everything after the comma; for a result with more commas it is only
    the text between the first and the second. *)
Theorem base64data_cases (r : string) :
  (base64data r = JUndefined <-> free_of "," r = true) /\
  (forall p b : string,
     free_of "," p = true -> free_of "," b = true ->
     r = p +:+ String "," b -> base64data r = JStr b) /\
  (forall p b rest : string,
     free_of "," p = true -> free_of "," b = true ->
     r = p +:+ String "," (b +:+ String "," rest) -> base64data r = JStr b).
Proof.
  split; [split|split].
  - intros Hundef. destruct (free_of "," r) eqn:Hfree; [reflexivity|].
    destruct (first_occurrence _ _ Hfree) as (p & q & -> & Hp).
    unfold base64data in Hundef. rewrite (split_on_app _ _ _ Hp) in Hundef.
    destruct (split_on_head "," q) as (w & ws & Hq). rewrite Hq in Hundef.
    discriminate.
  - intros Hfree. unfold base64data. rewrite (split_on_free _ _ Hfree). reflexivity.
  - intros p b Hp Hb ->. unfold base64data.
    rewrite (split_on_app _ _ _ Hp), (split_on_free _ _ Hb). reflexivity.
  - intros p b rest Hp Hb ->. unfold base64data.
    rewrite (split_on_app _ _ _ Hp), (split_on_app _ _ _ Hb). reflexivity.
Qed.

Lemma base64data_cases_witness :
  free_of "," "data:image/png;base64" = true /\
  free_of "," "QQ==" = true /\
  base64data "data:image/png;base64,QQ==,Qg==" = JStr "QQ==".
Proof.
  split; [reflexivity|]. split; [reflexivity|].
  exact (proj2 (proj2 (base64data_cases "data:image/png;base64,QQ==,Qg=="))
           "data:image/png;base64" "QQ==" "Qg==" eq_refl eq_refl eq_refl).
Defined.

Lemma run_frames (t : list event) (st st' : state) :
  same_session t st = true ->
  run t st = Some st' ->
  frameSequence (st_hooks st') = frameSequence (st_hooks st) ++ completed t.
Proof.
  revert st. induction t as [|e t IH]; intros st Hsession Hrun; simpl in Hsession, Hrun.
  - injection Hrun as <-. simpl. rewrite app_nil_r. reflexivity.
  - apply andb_prop in Hsession as [Hstart Hrest].
    apply negb_true_iff in Hstart.
    destruct (enabled e st); [|discriminate].
    rewrite (completed_cons e t), app_assoc, <- (step_frames e st Hstart).
    exact (IH _ Hrest Hrun).
Qed.

(** X10: from a start action taken with a stream bound, up to the next
    start action, [frameSequence] holds exactly the frames of the encodes
    that completed since that start, in completion order: whatever an
    earlier recording had collected is gone, and an encode that completes
    after the stop is still added. *)
Theorem session_frames (st st' : state) (s : stream) (t : list event) :
  videoRef (st_refs st) = Some {| srcObject := Some s |} ->
  isRecording (st_hooks st) = false ->
  same_session t (step Click st) = true ->
  run t (step Click st) = Some st' ->
  frameSequence (st_hooks st') = completed t.
Proof.
  intros Hvideo Hidle Hsession Hrun.
  rewrite (run_frames t _ _ Hsession Hrun).
  destruct st as [[rec resp proc err frames sending] [video canvas strm] w].
  simpl in *. subst. destruct canvas; reflexivity.
Qed.

Lemma session_frames_witness :
  exists st',
    run [Tick; EncodeDone (Some (png_data_url frameB)); Click;
         EncodeDone (Some (png_data_url frameC))]
        (step Click (step (Mount (Granted 1)) initial)) = Some st' /\
    frameSequence (st_hooks st') = [JStr "Qg=="; JStr "Qw=="].
Proof.
  eexists. split; [vm_compute; reflexivity|].
  rewrite (session_frames (step (Mount (Granted 1)) initial) _ 1
             [Tick; EncodeDone (Some (png_data_url frameB)); Click;
              EncodeDone (Some (png_data_url frameC))]
             ltac:(vm_compute; reflexivity) ltac:(vm_compute; reflexivity)
             ltac:(vm_compute; reflexivity) ltac:(vm_compute; reflexivity)).
  vm_compute. reflexivity.
Defined.

(** *** The error message *)

(** X11: an error message, once set, stays set until a start action is
    taken: no other turn clears it, and only a failed camera request or a
    failed submission replaces it. *)
Theorem error_kept_until_start (e : event) (st : state) :
  starts e st = false ->
  (is_Some (error (st_hooks st)) -> is_Some (error (st_hooks (step e st)))) /\
  ((forall x, e <> Mount (Denied x)) -> (forall x, e <> ServiceDone (Threw x)) ->
   error (st_hooks (step e st)) = error (st_hooks st)).
Proof.
  intros Hstart. destruct e as [o| | |result|o].
  - destruct o as [s|x].
    + split; [intros H|intros _ _]; open_state st; simpl; try exact H; reflexivity.
    + split; [intros _; open_state st; simpl; eauto|].
      intros Hdenied. exfalso. exact (Hdenied x eq_refl).
  - simpl in Hstart. apply negb_false_iff in Hstart.
    assert (Heq : error (st_hooks (step Click st)) = error (st_hooks st)).
    { destruct st as [[rec resp proc err frames sending] [video canvas strm] w].
      simpl in Hstart. subst rec. destruct frames; reflexivity. }
    rewrite Heq. split; [tauto | reflexivity].
  - assert (Heq : error (st_hooks (step Tick st)) = error (st_hooks st)).
    { destruct st as [[rec resp proc err frames sending] [video canvas strm] w].
      destruct video, canvas; reflexivity. }
    rewrite Heq. split; [tauto | reflexivity].
  - assert (Heq : error (st_hooks (step (EncodeDone result) st)) = error (st_hooks st)).
    { destruct result; open_state st; reflexivity. }
    rewrite Heq. split; [tauto | reflexivity].
  - assert (Heq : error (st_hooks (step (ServiceDone o) st))
                  = error (st_hooks (snd (send_settle o st)))).
    { unfold step, seq, handle.
      destruct (send_settle o st) as [[|] [[? ? ? ? ? ?] ? [? ? ? ? ? ? ?]]]; reflexivity. }
    rewrite Heq. destruct o as [text|x].
    + assert (Hsame : error (st_hooks (snd (send_settle (Returned text) st)))
                      = error (st_hooks st)) by (open_state st; reflexivity).
      rewrite Hsame. split; [tauto | reflexivity].
    + split; [|intros _ Hthrew; exfalso; exact (Hthrew x eq_refl)].
      intros Hsome.
      destruct (send_settle_threw_catch x st) as [_ ->].
      destruct (fst (catch_clause x (settled st))) eqn:Hc.
      * destruct (catch_clause_normal x (settled st) Hc) as [m Hm]. rewrite Hm. eauto.
      * rewrite (catch_clause_abrupt x (settled st) Hc). open_state st. exact Hsome.
Qed.

Lemma error_kept_until_start_witness :
  starts Click (step (Mount (Denied fetch_error)) initial) = true /\
  starts Tick (step (Mount (Denied fetch_error)) initial) = false /\
  error (st_hooks (step Tick (step (Mount (Denied fetch_error)) initial)))
  = Some "Error: Unable to access camera. Please check your permissions and try again.".
Proof.
  split; [reflexivity|]. split; [reflexivity|].
  rewrite (proj2 (error_kept_until_start Tick (step (Mount (Denied fetch_error)) initial)
                    eq_refl)) by (intros x; discriminate).
  reflexivity.
Defined.

(** *** Captures *)

(** X12: in every state the component can reach both elements are mounted,
    so every firing of the timer begins exactly one capture, a click begins
    one exactly when it starts a recording (the camera being granted), an
    encode completion ends one, also when its result is [null], and
    a service answer begins none. *)
Theorem captures_begun (t : list event) (st : state) :
  run t initial = Some st ->
  pendingEncodes (st_world (step Tick st)) = S (pendingEncodes (st_world st)) /\
  pendingEncodes (st_world (step Click st))
  = (if isRecording (st_hooks st) then pendingEncodes (st_world st)
     else match streamRef (st_refs st) with
          | Some _ => S (pendingEncodes (st_world st))
          | None => pendingEncodes (st_world st)
          end) /\
  (forall result : option string,
     pendingEncodes (st_world (step (EncodeDone result) st))
     = pred (pendingEncodes (st_world st))) /\
  (forall o : outcome,
     pendingEncodes (st_world (step (ServiceDone o) st)) = pendingEncodes (st_world st)).
Proof.
  intros Hrun.
  pose proof (run_consistent t initial st Hrun initial_consistent)
    as [Hvideo Hcanvas _ _ _ _].
  split; [|split; [|split]].
  - destruct st as [[rec resp proc err frames sending] [video canvas strm] w].
    simpl in *. subst. destruct w. reflexivity.
  - destruct st as [[rec resp proc err frames sending] [video canvas strm] w].
    simpl in *. subst. destruct w.
    destruct rec; [destruct frames | destruct strm]; reflexivity.
  - intros result. destruct result; open_state st; reflexivity.
  - intros o. unfold step, seq, handle.
    pose proof (send_settle_world o st) as (_ & _ & Hp).
    destruct (send_settle o st) as [[|] [? ? [? ? ? ? ? ? ?]]]; exact Hp.
Qed.

Lemma captures_begun_witness :
  exists st,
    run [Mount (Granted 1); Click] initial = Some st /\
    pendingEncodes (st_world st) = 1 /\
    pendingEncodes (st_world (step Tick st)) = 2.
Proof.
  eexists. split; [vm_compute; reflexivity|].
  split; [vm_compute; reflexivity|].
  rewrite (proj1 (captures_begun [Mount (Granted 1); Click] _
                    ltac:(vm_compute; reflexivity))).
  vm_compute. reflexivity.
Defined.
